(** * Clone authorization (pkg/clone/auth.go)

    A shallow embedding of the four clone-authorization entry points of
    the CDI project and of the two helpers that submit
    SubjectAccessReviews, followed by the properties the specification
    states about them.

    The evaluator is the Go interface [SubjectAccessReviewsProxy].  A
    function that talks to it is embedded as a finite tree of [Create]
    calls ([proc]); [run] plays such a tree against any implementation of
    the interface and records every review submitted together with the
    answer it got. *)

From Stdlib Require Import Ascii String.
From stdpp Require Import base strings list gmap fin_maps.

Local Open Scope string_scope.

(** ** The fragment of Go's [fmt.Sprintf] the package uses

    The formats of auth.go consist of plain text and [%s] verbs, and the
    operands are strings.  [Sprintf] covers such formats (and [%%]); a
    missing operand and left-over operands print the way package fmt
    prints them.  Other verbs are not modelled. *)

Fixpoint extraOperands (a : list string) : string :=
  match a with
  | [] => ""
  | [x] => "string=" +:+ x
  | x :: a' => "string=" +:+ x +:+ ", " +:+ extraOperands a'
  end.

Fixpoint Sprintf (format : string) (a : list string) : string :=
  match format with
  | EmptyString =>
      match a with
      | [] => ""
      | _ :: _ => "%!(EXTRA " +:+ extraOperands a +:+ ")"
      end
  | String "%"%char (String "s"%char rest) =>
      match a with
      | [] => "%!s(MISSING)" +:+ Sprintf rest []
      | x :: a' => x +:+ Sprintf rest a'
      end
  | String "%"%char (String "%"%char rest) => String "%"%char (Sprintf rest a)
  | String c rest => String c (Sprintf rest a)
  end.

(** ** k8s.io/api/authentication/v1 *)

Module authentication.

(** [ExtraValue] is [[]string], here [list string].  [Extra] is a Go
    map: [None] is the nil map, [Some ∅] an allocated map without
    entries. *)
Record UserInfo : Type := {
  Username : string;
  UID : string;
  Groups : list string;
  Extra : option (gmap string (list string))
}.

End authentication.

(** ** k8s.io/api/authorization/v1

    The fields auth.go writes or reads, and the string fields next to
    them, which keep Go's zero value. *)

Module authorization.

Record ResourceAttributes : Type := {
  Namespace : string;
  Verb : string;
  Group : string;
  Version : string;
  Resource : string;
  Subresource : string;
  Name : string
}.

(** [ResourceAttributes] is a pointer field, [Extra] a map of
    [ExtraValue] (again [[]string]): [None] is nil in both. *)
Record SubjectAccessReviewSpec : Type := {
  ResourceAttributes_ : option ResourceAttributes;
  User : string;
  Groups : list string;
  Extra : option (gmap string (list string));
  UID : string
}.

Record SubjectAccessReviewStatus : Type := {
  Allowed : bool;
  Denied : bool;
  Reason : string;
  EvaluationError : string
}.

Record SubjectAccessReview : Type := {
  Spec : SubjectAccessReviewSpec;
  Status : SubjectAccessReviewStatus
}.

(** The zero value of the status, as in a review built with a composite
    literal that sets [Spec] only. *)
Definition zeroStatus : SubjectAccessReviewStatus :=
  {| Allowed := false; Denied := false; Reason := ""; EvaluationError := "" |}.

(** [sar.Spec.ResourceAttributes = &ra] *)
Definition setResourceAttributes (sar : SubjectAccessReview)
    (ra : ResourceAttributes) : SubjectAccessReview :=
  {| Spec := {| ResourceAttributes_ := Some ra;
                User := User (Spec sar);
                Groups := Groups (Spec sar);
                Extra := Extra (Spec sar);
                UID := UID (Spec sar) |};
     Status := Status sar |}.

End authorization.

(** [len(m)] for a Go map: the nil map has length 0. *)
Definition len {V : Type} (m : option (gmap string V)) : nat :=
  match m with
  | None => 0
  | Some entries => size entries
  end.

(** ** Calls through the proxy

    [error] stands for the values of Go's [error] interface; a nil error
    is [None].  [Create] returns the pair Go returns: a possibly nil
    pointer to the answered review and a possibly nil error. *)

Section Proc.

Context {error : Type}.

Definition reply : Type :=
  (option authorization.SubjectAccessReview * option error)%type.

Inductive proc (R : Type) : Type :=
| Return (r : R)
| Panic
| Call (sar : authorization.SubjectAccessReview) (k : reply → proc R).

Global Arguments Return {R} r.
Global Arguments Panic {R}.
Global Arguments Call {R} sar k.

Fixpoint bind {A B : Type} (m : proc A) (f : A → proc B) : proc B :=
  match m with
  | Return a => f a
  | Panic => Panic
  | Call sar k => Call sar (λ answer, bind (k answer) f)
  end.

(** [client.Create(sar)] as a computation. *)
Definition create (sar : authorization.SubjectAccessReview) : proc reply :=
  Call sar Return.

(** [response.Status] behind the pointer: a nil pointer dereference
    panics. *)
Definition status (response : option authorization.SubjectAccessReview)
    : proc authorization.SubjectAccessReviewStatus :=
  match response with
  | Some review => Return (authorization.Status review)
  | None => Panic
  end.

(** What one iteration of a [for ... range] body does next: fall
    through to the next element, [break], or [return] from the enclosing
    function.  [S] is the state of the variables the loop assigns. *)
Inductive flow (S R : Type) : Type :=
| Next (s : S)
| Break (s : S)
| Exit (r : R).

Global Arguments Next {S R} s.
Global Arguments Break {S R} s.
Global Arguments Exit {S R} r.

(** [for _, x := range xs { body }]: the loop ends with the state of
    its variables ([inl]) or the enclosing function has returned
    ([inr]). *)
Fixpoint range {X S R : Type} (xs : list X) (body : X → S → proc (flow S R))
    (s : S) : proc (S + R) :=
  match xs with
  | [] => Return (inl s)
  | x :: xs' =>
      bind (body x s) (λ f,
        match f with
        | Next s' => range xs' body s'
        | Break s' => Return (inl s')
        | Exit r => Return (inr r)
        end)
  end.

End Proc.

Global Arguments proc : clear implicits.
Global Arguments reply : clear implicits.

Global Instance proc_ret {error : Type} : MRet (proc error) := λ _ r, Return r.
Global Instance proc_bind {error : Type} : MBind (proc error) :=
  λ _ _ f m, bind m f.

(** ** The interface [SubjectAccessReviewsProxy]

    An implementation is an object with state of its own: [Create] takes
    the state the object is in and the review handed to it, and gives the
    state it is left in and what the Go method returns.  The proxy reads
    the review it is handed; it does not write through it.  The interface
    value itself is not nil. *)

Class SubjectAccessReviewsProxy (error C : Type) : Type :=
  Create : C → authorization.SubjectAccessReview → C * reply error.

(** How a call of one of the functions below ends: it returns its
    values, or a run-time panic unwinds it. *)
Inductive outcome (R : Type) : Type :=
| Returns (r : R)
| Panics.

Global Arguments Returns {R} r.
Global Arguments Panics {R}.

(** [run p client] plays [p] against [client].  The third component is
    the exchange with the proxy: the reviews submitted, oldest first,
    each with the reply it got. *)
Fixpoint run {error C R : Type} `{!SubjectAccessReviewsProxy error C}
    (p : proc error R) (client : C)
    : outcome R * C * list (authorization.SubjectAccessReview * reply error) :=
  match p with
  | Return r => (Returns r, client, [])
  | Panic => (Panics, client, [])
  | Call sar k =>
      let served := Create client sar in
      let rest := run (k served.2) served.1 in
      (rest.1.1, rest.1.2, (sar, served.2) :: rest.2)
  end.

(** ** pkg/clone/auth.go *)

Section Clone.

Import authorization.

Context {error : Type}.

(** [cdiv1.SchemeGroupVersion.Group] and
    [cdiv1.DataVolumeCloneSourceSubresource] are constants of the API
    module, which is not part of this package: they are parameters
    here. *)
Variable SchemeGroupVersion_Group : string.
Variable DataVolumeCloneSourceSubresource : string.

(** The three values every function returns: [(bool, string, error)]. *)
Definition result : Type := (bool * string * option error)%type.

Definition getResourceAttributesPvc (namespace name : string)
    : list ResourceAttributes :=
  [ {| Namespace := namespace;
       Verb := "create";
       Group := SchemeGroupVersion_Group;
       Version := "";
       Resource := "datavolumes";
       Subresource := DataVolumeCloneSourceSubresource;
       Name := name |};
    {| Namespace := namespace;
       Verb := "create";
       Group := "";
       Version := "";
       Resource := "pods";
       Subresource := "";
       Name := name |} ].

Definition getExplicitResourceAttributeSnapshot (namespace name : string)
    : ResourceAttributes :=
  {| Namespace := namespace;
     Verb := "create";
     Group := SchemeGroupVersion_Group;
     Version := "";
     Resource := "datavolumes";
     Subresource := DataVolumeCloneSourceSubresource;
     Name := name |}.

Definition getImplicitResourceAttributesSnapshot (namespace name : string)
    : list ResourceAttributes :=
  [ {| Namespace := namespace;
       Verb := "create";
       Group := "";
       Version := "";
       Resource := "pods";
       Subresource := "";
       Name := name |};
    {| Namespace := namespace;
       Verb := "create";
       Group := "";
       Version := "";
       Resource := "pvcs";
       Subresource := "";
       Name := name |} ].

(** The [klog] lines have no effect on what is submitted or returned and
    are left out. *)
Definition sendSubjectAccessReviewsPvc (namespace name : string)
    (sarSpec : SubjectAccessReviewSpec) : proc error result :=
  let allowed := false in
  loop ← range (getResourceAttributesPvc namespace name)
    (λ ra allowed,
       let sar := {| Spec := sarSpec; Status := zeroStatus |} in
       let sar := setResourceAttributes sar ra in
       '(response, err) ← create sar;
       if err is Some _ then mret (Exit (false, "", err)) else
       st ← status response;
       if Allowed st then
         let allowed := true in mret (Break allowed)
       else mret (Next allowed))
    allowed;
  match loop with
  | inr returned => mret returned
  | inl allowed =>
      if negb allowed then
        mret (false,
              Sprintf "User %s has insufficient permissions in clone source namespace %s"
                [User sarSpec; namespace],
              None)
      else mret (true, "", None)
  end.

Definition sendSubjectAccessReviewsSnapshot (namespace name : string)
    (sarSpec : SubjectAccessReviewSpec) : proc error result :=
  (* Either explicitly allowed *)
  let sar := {| Spec := sarSpec; Status := zeroStatus |} in
  let explicitResourceAttr := getExplicitResourceAttributeSnapshot namespace name in
  let sar := setResourceAttributes sar explicitResourceAttr in
  '(response, err) ← create sar;
  if err is Some _ then mret (false, "", err) else
  st ← status response;
  if Allowed st then mret (true, "", None) else
  (* Or both implicit conditions hold *)
  loop ← range (getImplicitResourceAttributesSnapshot namespace name)
    (λ ra (_ : unit),
       let sar := {| Spec := sarSpec; Status := zeroStatus |} in
       let sar := setResourceAttributes sar ra in
       '(response, err) ← create sar;
       if err is Some _ then mret (Exit (false, "", err)) else
       st ← status response;
       if negb (Allowed st) then
         mret (Exit (false,
                     Sprintf "User %s has insufficient permissions in clone source namespace %s"
                       [User sarSpec; namespace],
                     None))
       else mret (Next ()))
    ();
  match loop with
  | inr returned => mret returned
  | inl _ => mret (true, "", None)
  end.

(** A nil map ranges like a map without entries. *)
Definition entries {V : Type} (m : option (gmap string V)) : gmap string V :=
  default ∅ m.

(** The four entry points.  The [client] argument of the Go functions is
    the proxy [run] plays the result against. *)

Definition CanUserClonePVC (sourceNamespace pvcName targetNamespace : string)
    (userInfo : authentication.UserInfo) : proc error result :=
  if decide (sourceNamespace = targetNamespace) then mret (true, "", None) else
  let newExtra : option (gmap string (list string)) :=
    if decide (0 < len (authentication.Extra userInfo)) then
      Some (map_fold (λ k v newExtra, <[k := v]> newExtra) ∅
              (entries (authentication.Extra userInfo)))
    else None in
  let sarSpec :=
    {| ResourceAttributes_ := None;
       User := authentication.Username userInfo;
       Groups := authentication.Groups userInfo;
       Extra := newExtra;
       UID := "" |} in
  sendSubjectAccessReviewsPvc sourceNamespace pvcName sarSpec.

Definition CanServiceAccountClonePVC (pvcNamespace pvcName saNamespace saName : string)
    : proc error result :=
  if decide (pvcNamespace = saNamespace) then mret (true, "", None) else
  let user := Sprintf "system:serviceaccount:%s:%s" [saNamespace; saName] in
  let sarSpec :=
    {| ResourceAttributes_ := None;
       User := user;
       Groups := [ "system:serviceaccounts";
                   "system:serviceaccounts:" +:+ saNamespace;
                   "system:authenticated" ];
       Extra := None;
       UID := "" |} in
  sendSubjectAccessReviewsPvc pvcNamespace pvcName sarSpec.

Definition CanUserCloneSnapshot (sourceNamespace pvcName targetNamespace : string)
    (userInfo : authentication.UserInfo) : proc error result :=
  if decide (sourceNamespace = targetNamespace) then mret (true, "", None) else
  let newExtra : option (gmap string (list string)) :=
    if decide (0 < len (authentication.Extra userInfo)) then
      Some (map_fold (λ k v newExtra, <[k := v]> newExtra) ∅
              (entries (authentication.Extra userInfo)))
    else None in
  let sarSpec :=
    {| ResourceAttributes_ := None;
       User := authentication.Username userInfo;
       Groups := authentication.Groups userInfo;
       Extra := newExtra;
       UID := "" |} in
  sendSubjectAccessReviewsSnapshot sourceNamespace pvcName sarSpec.

Definition CanServiceAccountCloneSnapshot (pvcNamespace pvcName saNamespace saName : string)
    : proc error result :=
  if decide (pvcNamespace = saNamespace) then mret (true, "", None) else
  let user := Sprintf "system:serviceaccount:%s:%s" [saNamespace; saName] in
  let sarSpec :=
    {| ResourceAttributes_ := None;
       User := user;
       Groups := [ "system:serviceaccounts";
                   "system:serviceaccounts:" +:+ saNamespace;
                   "system:authenticated" ];
       Extra := None;
       UID := "" |} in
  sendSubjectAccessReviewsSnapshot pvcNamespace pvcName sarSpec.

End Clone.

Global Arguments result : clear implicits.

(** ** Vocabulary of the specification

    The four entry points differ in the kind of source and in the kind of
    identity; [CanClone] names the entry point for a pair of them, so that
    a statement about "each of the four operations" is one statement.  For
    a service account the target namespace is the account's namespace. *)

Inductive source : Type := FromPVC | FromSnapshot.

Inductive identity : Type :=
| AsUser (userInfo : authentication.UserInfo)
| AsServiceAccount (saName : string).

Section Vocabulary.

Import authorization.

Context {error : Type}.
Variable SchemeGroupVersion_Group : string.
Variable DataVolumeCloneSourceSubresource : string.

Definition CanClone (src : source) (who : identity)
    (sourceNamespace name targetNamespace : string) : proc error (result error) :=
  match src, who with
  | FromPVC, AsUser userInfo =>
      CanUserClonePVC SchemeGroupVersion_Group DataVolumeCloneSourceSubresource
        sourceNamespace name targetNamespace userInfo
  | FromPVC, AsServiceAccount saName =>
      CanServiceAccountClonePVC SchemeGroupVersion_Group DataVolumeCloneSourceSubresource
        sourceNamespace name targetNamespace saName
  | FromSnapshot, AsUser userInfo =>
      CanUserCloneSnapshot SchemeGroupVersion_Group DataVolumeCloneSourceSubresource
        sourceNamespace name targetNamespace userInfo
  | FromSnapshot, AsServiceAccount saName =>
      CanServiceAccountCloneSnapshot SchemeGroupVersion_Group DataVolumeCloneSourceSubresource
        sourceNamespace name targetNamespace saName
  end.

(** The helper an entry point hands over to once the namespaces
    differ. *)
Definition sendSubjectAccessReviews (src : source)
    : string → string → SubjectAccessReviewSpec → proc error (result error) :=
  match src with
  | FromPVC =>
      sendSubjectAccessReviewsPvc SchemeGroupVersion_Group DataVolumeCloneSourceSubresource
  | FromSnapshot =>
      sendSubjectAccessReviewsSnapshot SchemeGroupVersion_Group DataVolumeCloneSourceSubresource
  end.

(** The subject as the specification words it (Identity Builder): a user
    keeps name and groups, and the extra attributes unless there are
    none; a service account gets the synthesized principal, the three
    fixed groups and no extra attributes. *)
Definition subject (who : identity) (targetNamespace : string) : SubjectAccessReviewSpec :=
  match who with
  | AsUser userInfo =>
      {| ResourceAttributes_ := None;
         User := authentication.Username userInfo;
         Groups := authentication.Groups userInfo;
         Extra := match authentication.Extra userInfo with
                  | Some m => if decide (m = ∅) then None else Some m
                  | None => None
                  end;
         UID := "" |}
  | AsServiceAccount saName =>
      {| ResourceAttributes_ := None;
         User := "system:serviceaccount:" +:+ targetNamespace +:+ ":" +:+ saName;
         Groups := [ "system:serviceaccounts";
                     "system:serviceaccounts:" +:+ targetNamespace;
                     "system:authenticated" ];
         Extra := None;
         UID := "" |}
  end.

(** The review that asks whether [sarSpec] may [create] the given
    resource, named [name], in [namespace]. *)
Definition query (sarSpec : SubjectAccessReviewSpec)
    (namespace name group resource subresource : string) : SubjectAccessReview :=
  {| Spec := {| ResourceAttributes_ :=
                  Some {| Namespace := namespace; Verb := "create"; Group := group;
                          Version := ""; Resource := resource;
                          Subresource := subresource; Name := name |};
                User := User sarSpec;
                Groups := Groups sarSpec;
                Extra := Extra sarSpec;
                UID := UID sarSpec |};
     Status := zeroStatus |}.

Definition cloneSourceQuery (sarSpec : SubjectAccessReviewSpec) (namespace name : string) :=
  query sarSpec namespace name
    SchemeGroupVersion_Group "datavolumes" DataVolumeCloneSourceSubresource.

Definition podsQuery (sarSpec : SubjectAccessReviewSpec) (namespace name : string) :=
  query sarSpec namespace name "" "pods" "".

Definition pvcsQuery (sarSpec : SubjectAccessReviewSpec) (namespace name : string) :=
  query sarSpec namespace name "" "pvcs" "".

(** The most reviews an operation on a source of this kind submits. *)
Definition budget (src : source) : nat :=
  match src with
  | FromPVC => 2
  | FromSnapshot => 3
  end.

(** The denial message. *)
Definition insufficient (principal sourceNamespace : string) : string :=
  "User " +:+ principal +:+
  " has insufficient permissions in clone source namespace " +:+ sourceNamespace.

(** A reply in the sense of the specification's evaluator, which answers
    with an access result or with an error.  Go's pair has one value
    more, the nil review with the nil error. *)
Definition result_or_error (a : reply error) : Prop := a ≠ (None, None).

(** Properties of every call a computation can make, whatever the
    replies. *)

Inductive submits (P : SubjectAccessReview → Prop) {R : Type} : proc error R → Prop :=
| submits_Return r : submits P (Return r)
| submits_Panic : submits P Panic
| submits_Call sar k :
    P sar → (∀ a, submits P (k a)) → submits P (Call sar k).

Inductive at_most {R : Type} : nat → proc error R → Prop :=
| at_most_Return n r : at_most n (Return r)
| at_most_Panic n : at_most n Panic
| at_most_Call n sar k :
    (∀ a, at_most n (k a)) → at_most (S n) (Call sar k).

(** As long as no reply is (nil, nil) there is no panic, and what is
    returned satisfies [Q]. *)
Inductive returns {R : Type} (Q : R → Prop) : proc error R → Prop :=
| returns_Return r : Q r → returns Q (Return r)
| returns_Call sar k :
    (∀ a, a ≠ (None, None) → returns Q (k a)) → returns Q (Call sar k).

(** The returned values are a decision (with a nil error) or an
    error (with the zero values next to it). *)
Definition decision_or_error (r : result error) : Prop :=
  (∃ allowed reason, r = (allowed, reason, None))
  ∨ (∃ e, r = (false, "", Some e)).

(** An error in a reply ends the computation with that error and
    nothing else. *)
Inductive propagates : proc error (result error) → Prop :=
| propagates_Return r : propagates (Return r)
| propagates_Panic : propagates Panic
| propagates_Call sar k :
    (∀ response e, k (response, Some e) = Return (false, "", Some e)) →
    (∀ response, propagates (k (response, None))) →
    propagates (Call sar k).

(** ** What the helpers do with a reply, and in which order they ask *)

(** What the helpers read of a reply: the error when there is one, and
    otherwise whether there is a review and, if so, its [Allowed] flag. *)
Definition reading (a : reply error) : option bool + error :=
  match a with
  | (_, Some e) => inr e
  | (response, None) => inl ((λ review, Allowed (Status review)) <$> response)
  end.

(** The reply is an allowed review with a nil error. *)
Definition allows (a : reply error) : bool :=
  match a with
  | (Some review, None) => Allowed (Status review)
  | _ => false
  end.

(** The review built in the body of the loops for the attributes [ra]. *)
Definition reviewOf (sarSpec : SubjectAccessReviewSpec) (ra : ResourceAttributes)
    : SubjectAccessReview :=
  setResourceAttributes {| Spec := sarSpec; Status := zeroStatus |} ra.

(** The reviews a helper may submit, in the order of the source. *)
Definition agenda (src : source) (sarSpec : SubjectAccessReviewSpec)
    (namespace name : string) : list SubjectAccessReview :=
  reviewOf sarSpec <$>
    match src with
    | FromPVC =>
        getResourceAttributesPvc SchemeGroupVersion_Group DataVolumeCloneSourceSubresource
          namespace name
    | FromSnapshot =>
        getExplicitResourceAttributeSnapshot
          SchemeGroupVersion_Group DataVolumeCloneSourceSubresource namespace name
        :: getImplicitResourceAttributesSnapshot namespace name
    end.

(** The three shapes of the returned values. *)
Definition granted : result error := (true, "", None).

Definition denied (principal sourceNamespace : string) : result error :=
  (false, insufficient principal sourceNamespace, None).

Definition failed (e : error) : result error := (false, "", Some e).

(** Along every path the calls are an initial segment of [qs]. *)
Inductive asks {R : Type} : list SubjectAccessReview → proc error R → Prop :=
| asks_Return qs r : asks qs (Return r)
| asks_Panic qs : asks qs Panic
| asks_Call q qs k : (∀ a, asks qs (k a)) → asks (q :: qs) (Call q k).

(** Every value returned, after whatever replies, satisfies [Q]. *)
Inductive ends_with {R : Type} (Q : R → Prop) : proc error R → Prop :=
| ends_with_Return r : Q r → ends_with Q (Return r)
| ends_with_Panic : ends_with Q Panic
| ends_with_Call sar k : (∀ a, ends_with Q (k a)) → ends_with Q (Call sar k).

(** [true] is returned only once [seen] holds: after a reply that
    [allows]. *)
Inductive grants_after : bool → proc error (result error) → Prop :=
| grants_after_Return seen r : (r.1.1 = true → seen = true) → grants_after seen (Return r)
| grants_after_Panic seen : grants_after seen Panic
| grants_after_Call seen sar k :
    (∀ a, grants_after (seen || allows a) (k a)) → grants_after seen (Call sar k).

(** A panic comes with the reply (nil, nil), at once, and with nothing
    else. *)
Inductive panics_on_nil {R : Type} : proc error R → Prop :=
| panics_on_nil_Return r : panics_on_nil (Return r)
| panics_on_nil_Call sar k :
    k (None, None) = Panic →
    (∀ a, a ≠ (None, None) → panics_on_nil (k a)) →
    panics_on_nil (Call sar k).

(** What follows a call depends on the reply through its [reading]
    only. *)
Inductive uniform {R : Type} : proc error R → Prop :=
| uniform_Return r : uniform (Return r)
| uniform_Panic : uniform Panic
| uniform_Call sar k :
    (∀ a b, reading a = reading b → k a = k b) →
    (∀ a, uniform (k a)) →
    uniform (Call sar k).

(** The two policies over the replies of an exchange, as the
    specification words them: for a PVC some review is allowed; for a
    snapshot the explicit review is allowed, or else both implicit reviews
    are there and allowed. *)
Definition satisfied (src : source) (replies : list (reply error)) : bool :=
  match src, replies with
  | FromPVC, _ => existsb allows replies
  | FromSnapshot, [] => false
  | FromSnapshot, explicit :: implicit =>
      allows explicit || (bool_decide (List.length implicit = 2) && forallb allows implicit)
  end.

(** The proxy answers a review the same way in whatever state it is. *)
Definition stateless (C : Type) `{!SubjectAccessReviewsProxy error C}
    (answer : SubjectAccessReview → reply error) : Prop :=
  ∀ (client : C) sar, (Create client sar).2 = answer sar.

End Vocabulary.

(** A proxy for examples: it hands out the replies of a script in order,
    whatever the review, and fails once the script is used up. *)
Record scripted : Type := Scripted { pending : list (reply string) }.

Global Instance scripted_proxy : SubjectAccessReviewsProxy string scripted :=
  λ client _,
    match pending client with
    | [] => (client, (None, Some "no reply left"))
    | a :: script => (Scripted script, a)
    end.

Definition verdict (allowed : bool) : authorization.SubjectAccessReview :=
  {| authorization.Spec :=
       {| authorization.ResourceAttributes_ := None; authorization.User := "";
          authorization.Groups := []; authorization.Extra := None;
          authorization.UID := "" |};
     authorization.Status :=
       {| authorization.Allowed := allowed; authorization.Denied := false;
          authorization.Reason := ""; authorization.EvaluationError := "" |} |}.

Definition allow : reply string := (Some (verdict true), None).

Definition deny : reply string := (Some (verdict false), None).

Definition failing (e : string) : reply string := (None, Some e).

(** A second proxy for examples: it counts the calls and allows the
    creation of pods and nothing else. *)
Record pods_only : Type := PodsOnly { calls : nat }.

Global Instance pods_only_proxy : SubjectAccessReviewsProxy string pods_only :=
  λ client sar,
    let allowed :=
      match authorization.ResourceAttributes_ (authorization.Spec sar) with
      | Some ra => bool_decide (authorization.Resource ra = "pods")
      | None => false
      end in
    (PodsOnly (S (calls client)),
     (Some {| authorization.Spec := authorization.Spec sar;
              authorization.Status :=
                {| authorization.Allowed := allowed; authorization.Denied := false;
                   authorization.Reason := ""; authorization.EvaluationError := "" |} |},
      None)).

Definition alice : authentication.UserInfo :=
  {| authentication.Username := "alice"; authentication.UID := "";
     authentication.Groups := []; authentication.Extra := None |}.

Definition bob : authentication.UserInfo :=
  {| authentication.Username := "bob"; authentication.UID := "";
     authentication.Groups := ["dev"];
     authentication.Extra := Some {[ "scopes" := ["a"; "b"] ]} |}.

(** The entry points with the constants of the CDI API module. *)
Definition cdi {error : Type} (src : source) (who : identity)
    (sourceNamespace name targetNamespace : string) : proc error (result error) :=
  CanClone "cdi.kubevirt.io" "source" src who sourceNamespace name targetNamespace.

(** A third proxy for examples: it allows the creation of pods and of
    pvcs, and nothing else. *)
Record implicit_only : Type := ImplicitOnly { served : nat }.

Definition implicit_only_answer (sar : authorization.SubjectAccessReview) : reply string :=
  let allowed :=
    match authorization.ResourceAttributes_ (authorization.Spec sar) with
    | Some ra =>
        bool_decide (authorization.Resource ra = "pods")
        || bool_decide (authorization.Resource ra = "pvcs")
    | None => false
    end in
  (Some {| authorization.Spec := authorization.Spec sar;
           authorization.Status :=
             {| authorization.Allowed := allowed; authorization.Denied := false;
                authorization.Reason := ""; authorization.EvaluationError := "" |} |},
   None).

Global Instance implicit_only_proxy : SubjectAccessReviewsProxy string implicit_only :=
  λ client sar, (ImplicitOnly (S (served client)), implicit_only_answer sar).

(** alice once more, with a UID and an allocated map without entries. *)
Definition alice_with_uid : authentication.UserInfo :=
  {| authentication.Username := "alice"; authentication.UID := "7f3c";
     authentication.Groups := []; authentication.Extra := Some ∅ |}.

(** A review that is allowed and denied at once, with an evaluation
    error noted. *)
Definition muddled : authorization.SubjectAccessReview :=
  {| authorization.Spec :=
       {| authorization.ResourceAttributes_ := None; authorization.User := "x";
          authorization.Groups := []; authorization.Extra := None;
          authorization.UID := "" |};
     authorization.Status :=
       {| authorization.Allowed := true; authorization.Denied := true;
          authorization.Reason := "no"; authorization.EvaluationError := "webhook timeout" |} |}.

(** ** Strings and maps *)

Lemma append_empty_r (s : string) : s +:+ "" = s.
Proof.
  induction s as [|c s IH]; [reflexivity|].
  change (String c (s +:+ "") = String c s). by rewrite IH.
Qed.

Lemma append_inj_r (s a b : string) : s +:+ a = s +:+ b → a = b.
Proof.
  induction s as [|c s IH]; [done|].
  change (String c (s +:+ a) = String c (s +:+ b) → a = b).
  intros [= Heq]. by apply IH.
Qed.

Lemma Sprintf_service_account (saNamespace saName : string) :
  Sprintf "system:serviceaccount:%s:%s" [saNamespace; saName]
  = "system:serviceaccount:" +:+ saNamespace +:+ ":" +:+ saName.
Proof. cbn. by rewrite append_empty_r. Qed.

(** The loop that fills [newExtra] copies the map. *)
Lemma copy_entries {V : Type} (m : gmap string V) :
  map_fold (λ k v newExtra, <[k := v]> newExtra) ∅ m = m.
Proof.
  apply (map_fold_weak_ind (λ r m', r = m')); [reflexivity|].
  intros k v m' r _ ->. reflexivity.
Qed.

(** ** Running a computation *)

Section Run.

Context {error C : Type} `{!SubjectAccessReviewsProxy error C}.

Lemma run_Call {R : Type} sar (k : reply error → proc error R) (client client' : C) a :
  Create client sar = (client', a) →
  run (Call sar k) client
  = ((run (k a) client').1.1, (run (k a) client').1.2, (sar, a) :: (run (k a) client').2).
Proof. intros Hserved. cbn. by rewrite Hserved. Qed.

Lemma run_submits {R : Type} (P : authorization.SubjectAccessReview → Prop)
    (p : proc error R) :
  submits P p → ∀ client : C, Forall P (run p client).2.*1.
Proof.
  induction 1 as [r| |sar k HP _ IH]; intros client; cbn; try constructor.
  - exact HP.
  - apply IH.
Qed.

Lemma run_at_most {R : Type} n (p : proc error R) :
  at_most n p → ∀ client : C, (List.length (run p client).2 ≤ n)%nat.
Proof.
  induction 1 as [n r|n|n sar k _ IH]; intros client; cbn; try lia.
  specialize (IH (Create client sar).2 (Create client sar).1). lia.
Qed.

Lemma run_returns {R : Type} (Q : R → Prop) (p : proc error R) :
  returns Q p →
  ∀ client : C,
    Forall (λ served, result_or_error served.2) (run p client).2 →
    ∃ r, (run p client).1.1 = Returns r ∧ Q r.
Proof.
  induction 1 as [r HQ|sar k _ IH]; intros client; cbn.
  - intros _. by exists r.
  - intros [Hreply Hrest]%Forall_cons. by apply IH.
Qed.

Lemma run_propagates (p : proc error (result error)) :
  propagates p →
  ∀ (client : C) i sar response e,
    (run p client).2 !! i = Some (sar, (response, Some e)) →
    (run p client).1.1 = Returns (false, "", Some e) ∧ List.length (run p client).2 = S i.
Proof.
  induction 1 as [r| |sar k Herr _ IH]; intros client i sar' response e; cbn;
    try discriminate.
  destruct (Create client sar) as [client' [response' [e'|]]] eqn:Hserved; cbn.
  - rewrite Herr. cbn. destruct i as [|i]; cbn; [|discriminate].
    intros [= _ _ ->]. done.
  - destruct i as [|i]; cbn; [discriminate|].
    intros Hi. destruct (IH response' client' i sar' response e Hi) as [-> ->]. done.
Qed.

End Run.

(** ** The entry points and the two helpers *)

Section Properties.

Import authorization.

Context {error : Type}.
Variable SchemeGroupVersion_Group : string.
Variable DataVolumeCloneSourceSubresource : string.

Local Abbreviation CanClone := (CanClone (error := error)
  SchemeGroupVersion_Group DataVolumeCloneSourceSubresource).
Local Abbreviation send := (sendSubjectAccessReviews (error := error)
  SchemeGroupVersion_Group DataVolumeCloneSourceSubresource).
Local Abbreviation cloneSourceQuery := (cloneSourceQuery
  SchemeGroupVersion_Group DataVolumeCloneSourceSubresource).

Lemma Sprintf_insufficient (principal sourceNamespace : string) :
  Sprintf "User %s has insufficient permissions in clone source namespace %s"
    [principal; sourceNamespace]
  = insufficient principal sourceNamespace.
Proof. cbn. by rewrite append_empty_r. Qed.

(** The subject an entry point builds is the one the specification
    describes. *)
Lemma CanClone_send src who sourceNamespace name targetNamespace :
  CanClone src who sourceNamespace name targetNamespace
  = if decide (sourceNamespace = targetNamespace) then Return (true, "", None)
    else send src sourceNamespace name (subject who targetNamespace).
Proof.
  assert (Hextra : ∀ userInfo,
    (if decide (0 < len (authentication.Extra userInfo))
     then Some (map_fold (λ k v newExtra, <[k := v]> newExtra) ∅
                  (entries (authentication.Extra userInfo)))
     else None)
    = match authentication.Extra userInfo with
      | Some m => if decide (m = ∅) then None else Some m
      | None => None
      end).
  { intros [? ? ? [m|]]; cbn; [|reflexivity].
    rewrite copy_entries.
    destruct (decide (m = ∅)) as [->|Hne].
    - by rewrite map_size_empty.
    - apply map_size_non_empty_iff in Hne.
      destruct (decide (0 < size m)); [reflexivity|lia]. }
  destruct src, who as [userInfo|saName]; cbn;
    unfold CanUserClonePVC, CanServiceAccountClonePVC,
           CanUserCloneSnapshot, CanServiceAccountCloneSnapshot;
    destruct (decide (sourceNamespace = targetNamespace)); try reflexivity;
    cbn zeta; rewrite ?Hextra, ?Sprintf_service_account; reflexivity.
Qed.

Ltac unfold_send :=
  unfold sendSubjectAccessReviews, sendSubjectAccessReviewsPvc,
    sendSubjectAccessReviewsSnapshot;
  rewrite ?Sprintf_insufficient; cbn -[run].

(** Walking down the tree of calls: case analysis on a reply (review or
    nil, error or nil) and on the verdict of an answered review. *)
Ltac on_reply :=
  match goal with
  | |- ∀ _ : reply _, _ => intros [[?review|] [?e|]]; cbn
  | |- context [Allowed (Status ?review)] => destruct (Allowed (Status review)); cbn
  end.

Lemma send_submits src sourceNamespace name sarSpec :
  submits
    (λ sar, ∃ group resource subresource,
       sar = query sarSpec sourceNamespace name group resource subresource)
    (send src sourceNamespace name sarSpec).
Proof.
  destruct src; unfold_send;
    repeat first [on_reply | constructor; [by eexists _, _, _|] | constructor].
Qed.

Lemma send_at_most src sourceNamespace name sarSpec :
  at_most (budget src) (send src sourceNamespace name sarSpec).
Proof.
  destruct src; unfold_send; repeat first [on_reply | constructor].
Qed.

Lemma send_returns src sourceNamespace name sarSpec :
  returns decision_or_error (send src sourceNamespace name sarSpec).
Proof.
  destruct src; unfold_send;
    repeat first
      [ apply returns_Call; intros [[?review|] [?e|]] ?; cbn; try congruence
      | on_reply
      | apply returns_Return; first [by left; eexists _, _ | by right; eexists] ].
Qed.

Lemma send_propagates src sourceNamespace name sarSpec :
  propagates (send src sourceNamespace name sarSpec).
Proof.
  destruct src; unfold_send;
    repeat first
      [ constructor; [intros ? ?; reflexivity | intros [?review|]; cbn]
      | on_reply
      | constructor ].
Qed.

(** The same four facts about an entry point, where the shortcut for
    equal namespaces comes first. *)

Lemma CanClone_same_namespace src who namespace name :
  CanClone src who namespace name namespace = Return (true, "", None).
Proof.
  destruct src, who; cbn;
    unfold CanUserClonePVC, CanServiceAccountClonePVC,
           CanUserCloneSnapshot, CanServiceAccountCloneSnapshot;
    by case_decide.
Qed.

Lemma CanClone_cases (P : proc error (result error) → Prop)
    src who sourceNamespace name targetNamespace :
  P (Return (true, "", None)) →
  P (send src sourceNamespace name (subject who targetNamespace)) →
  P (CanClone src who sourceNamespace name targetNamespace).
Proof. intros Hsame Hsend. rewrite CanClone_send. by case_decide. Qed.

Section WithProxy.

Context {C : Type} `{!SubjectAccessReviewsProxy error C}.

Implicit Types (client : C) (who : identity) (src : source).

(** Follow a run through a call whose reply is known, then through the
    verdict of the answered review. *)
Ltac served H := erewrite run_Call by exact H; cbn -[run].
Ltac decided H := rewrite H; cbn -[run].

Lemma cross_namespace sourceNamespace targetNamespace src who name client :
  sourceNamespace ≠ targetNamespace →
  run (CanClone src who sourceNamespace name targetNamespace) client
  = run (send src sourceNamespace name (subject who targetNamespace)) client.
Proof. intros Hne. rewrite CanClone_send. by case_decide. Qed.

(** Across namespaces the exchange is never empty: it opens with the
    clone-source review. *)
Lemma cross_namespace_first_review src who sourceNamespace name targetNamespace client :
  sourceNamespace ≠ targetNamespace →
  ∃ a rest,
    (run (CanClone src who sourceNamespace name targetNamespace) client).2
    = (cloneSourceQuery (subject who targetNamespace) sourceNamespace name, a) :: rest.
Proof.
  intros Hne. rewrite cross_namespace by exact Hne.
  destruct src; unfold_send; cbn; by eexists _, _.
Qed.

(** C1: when the source namespace is the target (or service-account)
    namespace, each of the four operations returns (true, "", nil),
    whatever the identity and the object name, and the proxy is not
    called: nothing is submitted and the proxy is left as it was. *)
Theorem same_namespace_shortcut src who namespace name client :
  run (CanClone src who namespace name namespace) client
  = (Returns (true, "", None), client, []).
Proof. by rewrite CanClone_same_namespace. Qed.

(** C2: a PVC clone across namespaces submits the clone-source review
    first and the pods review second, and stops at the first one that is
    allowed.  If the first review is allowed, nothing else is submitted
    and the result is (true, "", nil); if the first is denied and the
    second allowed, the result is (true, "", nil) after exactly these
    two reviews. *)
Theorem pvc_clone_short_circuit_or who sourceNamespace name targetNamespace
    client client1 review1 :
  sourceNamespace ≠ targetNamespace →
  let first := cloneSourceQuery (subject who targetNamespace) sourceNamespace name in
  let second := podsQuery (subject who targetNamespace) sourceNamespace name in
  Create client first = (client1, (Some review1, None)) →
  (Allowed (Status review1) = true →
     run (CanClone FromPVC who sourceNamespace name targetNamespace) client
     = (Returns (true, "", None), client1, [(first, (Some review1, None))]))
  ∧ (Allowed (Status review1) = false →
     ∀ client2 review2,
       Create client1 second = (client2, (Some review2, None)) →
       Allowed (Status review2) = true →
       run (CanClone FromPVC who sourceNamespace name targetNamespace) client
       = (Returns (true, "", None), client2,
          [(first, (Some review1, None)); (second, (Some review2, None))])).
Proof.
  intros Hne first second H1. rewrite cross_namespace by exact Hne.
  unfold_send. split.
  - intros Hallowed. served H1. decided Hallowed. reflexivity.
  - intros Hdenied client2 review2 H2 Hallowed.
    served H1. decided Hdenied. served H2. decided Hallowed. reflexivity.
Qed.

(** C3: a snapshot clone across namespaces whose explicit clone-source
    review is allowed returns (true, "", nil) at once: neither the pods
    nor the pvcs review is submitted. *)
Theorem snapshot_clone_explicit_allowed who sourceNamespace name targetNamespace
    client client1 review1 :
  sourceNamespace ≠ targetNamespace →
  let explicit := cloneSourceQuery (subject who targetNamespace) sourceNamespace name in
  Create client explicit = (client1, (Some review1, None)) →
  Allowed (Status review1) = true →
  run (CanClone FromSnapshot who sourceNamespace name targetNamespace) client
  = (Returns (true, "", None), client1, [(explicit, (Some review1, None))]).
Proof.
  intros Hne explicit H1 Hallowed. rewrite cross_namespace by exact Hne.
  unfold_send. served H1. decided Hallowed. reflexivity.
Qed.

(** C4: a snapshot clone across namespaces whose explicit review is
    denied submits the pods review and then the pvcs review, and needs
    both.  A denied pods review ends the call, the pvcs review unsent,
    with (false, reason, nil); with pods allowed the pvcs review
    decides: (true, "", nil) if allowed, (false, reason, nil) if not.
    The reason names the principal and the source namespace. *)
Theorem snapshot_clone_implicit_and who sourceNamespace name targetNamespace
    client client1 review1 client2 review2 :
  sourceNamespace ≠ targetNamespace →
  let sarSpec := subject who targetNamespace in
  let explicit := cloneSourceQuery sarSpec sourceNamespace name in
  let pods := podsQuery sarSpec sourceNamespace name in
  let pvcs := pvcsQuery sarSpec sourceNamespace name in
  let denial := (false, insufficient (User sarSpec) sourceNamespace, None) in
  Create client explicit = (client1, (Some review1, None)) →
  Allowed (Status review1) = false →
  Create client1 pods = (client2, (Some review2, None)) →
  (Allowed (Status review2) = false →
     run (CanClone FromSnapshot who sourceNamespace name targetNamespace) client
     = (Returns denial, client2,
        [(explicit, (Some review1, None)); (pods, (Some review2, None))]))
  ∧ (Allowed (Status review2) = true →
     ∀ client3 review3,
       Create client2 pvcs = (client3, (Some review3, None)) →
       run (CanClone FromSnapshot who sourceNamespace name targetNamespace) client
       = (Returns (if Allowed (Status review3) then (true, "", None) else denial),
          client3,
          [(explicit, (Some review1, None)); (pods, (Some review2, None));
           (pvcs, (Some review3, None))])).
Proof.
  intros Hne sarSpec explicit pods pvcs denial H1 Hdenied H2.
  rewrite cross_namespace by exact Hne. unfold_send. split.
  - intros Hpods. served H1. decided Hdenied. served H2. decided Hpods.
    reflexivity.
  - intros Hpods client3 review3 H3.
    served H1. decided Hdenied. served H2. decided Hpods. served H3.
    by destruct (Allowed (Status review3)).
Qed.

(** C5: whichever of the four operations runs, and at whatever
    position in the exchange the proxy answers with an error, that
    review is the last one submitted and the call returns
    (false, "", err) with the very error of the reply: no decision, and
    in particular no denial, is made of it. *)
Theorem evaluator_error_returned_unchanged src who sourceNamespace name targetNamespace
    client i sar response e :
  (run (CanClone src who sourceNamespace name targetNamespace) client).2 !! i
    = Some (sar, (response, Some e)) →
  (run (CanClone src who sourceNamespace name targetNamespace) client).1.1
    = Returns (false, "", Some e)
  ∧ List.length (run (CanClone src who sourceNamespace name targetNamespace) client).2
    = S i.
Proof.
  apply run_propagates, CanClone_cases.
  - constructor.
  - apply send_propagates.
Qed.

(** C6: a PVC clone across namespaces whose two reviews are both
    answered and denied returns false with the reason
    "User <principal> has insufficient permissions in clone source
    namespace <sourceNamespace>" and a nil error, the principal being
    the user string of the subject. *)
Theorem pvc_clone_denied_reason who sourceNamespace name targetNamespace
    client client1 review1 client2 review2 :
  sourceNamespace ≠ targetNamespace →
  let sarSpec := subject who targetNamespace in
  let first := cloneSourceQuery sarSpec sourceNamespace name in
  let second := podsQuery sarSpec sourceNamespace name in
  Create client first = (client1, (Some review1, None)) →
  Allowed (Status review1) = false →
  Create client1 second = (client2, (Some review2, None)) →
  Allowed (Status review2) = false →
  run (CanClone FromPVC who sourceNamespace name targetNamespace) client
  = (Returns (false,
              "User " +:+ User sarSpec +:+
              " has insufficient permissions in clone source namespace " +:+
              sourceNamespace,
              None),
     client2,
     [(first, (Some review1, None)); (second, (Some review2, None))]).
Proof.
  intros Hne sarSpec first second H1 Hdenied1 H2 Hdenied2.
  rewrite cross_namespace by exact Hne. unfold_send.
  served H1. decided Hdenied1. served H2. decided Hdenied2. reflexivity.
Qed.

(** What every review submitted by an entry point looks like. *)
Lemma CanClone_submits src who sourceNamespace name targetNamespace client :
  Forall
    (λ sar, ∃ group resource subresource,
       sar = query (subject who targetNamespace) sourceNamespace name
               group resource subresource)
    (run (CanClone src who sourceNamespace name targetNamespace) client).2.*1.
Proof.
  apply run_submits, CanClone_cases.
  - constructor.
  - apply send_submits.
Qed.

(** C7: every review a service-account operation submits has the
    principal "system:serviceaccount:<saNamespace>:<saName>", exactly
    the three groups "system:serviceaccounts",
    "system:serviceaccounts:<saNamespace>" and "system:authenticated",
    in this order, and a nil extra map, for all namespace and name
    strings. *)
Theorem service_account_subject src pvcNamespace pvcName saNamespace saName client :
  Forall
    (λ sar,
       User (Spec sar) = "system:serviceaccount:" +:+ saNamespace +:+ ":" +:+ saName
       ∧ Groups (Spec sar)
         = ["system:serviceaccounts";
            "system:serviceaccounts:" +:+ saNamespace;
            "system:authenticated"]
       ∧ Extra (Spec sar) = None)
    (run (CanClone src (AsServiceAccount saName) pvcNamespace pvcName saNamespace)
       client).2.*1.
Proof.
  eapply Forall_impl; [apply CanClone_submits|].
  intros sar (group & resource & subresource & ->). by cbn.
Qed.

(** C8: every review a user operation submits carries the user's
    extra attributes: a map with entries arrives with the same keys and
    values; an empty or a nil map arrives as the nil map. *)
Theorem user_extra_passed_through src sourceNamespace pvcName targetNamespace
    userInfo client :
  Forall
    (λ sar,
       (∀ m, authentication.Extra userInfo = Some m → m ≠ ∅ →
             Extra (Spec sar) = Some m)
       ∧ (authentication.Extra userInfo = None
          ∨ authentication.Extra userInfo = Some ∅ →
          Extra (Spec sar) = None))
    (run (CanClone src (AsUser userInfo) sourceNamespace pvcName targetNamespace)
       client).2.*1.
Proof.
  eapply Forall_impl; [apply CanClone_submits|].
  intros sar (group & resource & subresource & ->). cbn. split.
  - intros m -> Hne. by case_decide.
  - intros [->| ->]; [reflexivity|]. by case_decide.
Qed.

(** C9, as amended: every call of the four operations, against every
    proxy and whatever the replies, submits at most 2 reviews for a PVC
    source and at most 3 for a snapshot source, and none when the
    namespaces are equal.  When every reply received is a result or an
    error, that is, none is a nil review with a nil error, the call comes
    back with a decision (nil error) or with an error.  Without that
    condition the last part fails: on such a reply the call panics. *)
Theorem bounded_exchange src who sourceNamespace name targetNamespace client :
  let exchange := run (CanClone src who sourceNamespace name targetNamespace) client in
  (List.length exchange.2 ≤ budget src)%nat
  ∧ (sourceNamespace = targetNamespace → List.length exchange.2 = 0)
  ∧ (Forall (λ served, result_or_error served.2) exchange.2 →
     (∃ allowed reason, exchange.1.1 = Returns (allowed, reason, None))
     ∨ (∃ e, exchange.1.1 = Returns (false, "", Some e))).
Proof.
  cbn zeta. split; [|split].
  - apply run_at_most, CanClone_cases; [constructor|apply send_at_most].
  - intros <-. by rewrite CanClone_same_namespace.
  - intros Hreplies.
    destruct (run_returns decision_or_error
                (CanClone src who sourceNamespace name targetNamespace))
      with (client := client) as (r & -> & Hr); [|exact Hreplies|].
    + apply CanClone_cases; [|apply send_returns].
      constructor. by left; eexists _, _.
    + destruct Hr as [(allowed & reason & ->)|(e & ->)]; [left|right]; eauto.
Qed.

(** C10: within one call, every review submitted carries the same
    subject (user, groups, extra) and resource attributes with the verb
    "create", the source namespace and the name of the source object;
    this holds for the pods and the pvcs reviews as well. *)
Theorem reviews_share_subject_and_target src who sourceNamespace name targetNamespace
    client :
  Forall
    (λ sar,
       User (Spec sar) = User (subject who targetNamespace)
       ∧ Groups (Spec sar) = Groups (subject who targetNamespace)
       ∧ Extra (Spec sar) = Extra (subject who targetNamespace)
       ∧ ∃ ra, ResourceAttributes_ (Spec sar) = Some ra
               ∧ Verb ra = "create"
               ∧ Namespace ra = sourceNamespace
               ∧ Name ra = name)
    (run (CanClone src who sourceNamespace name targetNamespace) client).2.*1.
Proof.
  eapply Forall_impl; [apply CanClone_submits|].
  intros sar (group & resource & subresource & ->). cbn.
  repeat split. by eexists.
Qed.

(** ** Further properties of the helpers and the entry points *)

Lemma run_asks {R : Type} qs (p : proc error R) :
  asks qs p → ∀ client, (run p client).2.*1 `prefix_of` qs.
Proof.
  induction 1 as [qs r|qs|q qs k _ IH]; intros client; cbn.
  - apply prefix_nil.
  - apply prefix_nil.
  - apply prefix_cons, IH.
Qed.

Lemma run_ends_with {R : Type} (Q : R → Prop) (p : proc error R) :
  ends_with Q p → ∀ client r, (run p client).1.1 = Returns r → Q r.
Proof.
  induction 1 as [r HQ| |sar k _ IH]; intros client r'; cbn.
  - by intros [= <-].
  - discriminate.
  - apply IH.
Qed.

Lemma run_grants_after seen (p : proc error (result error)) :
  grants_after seen p →
  ∀ client r,
    (run p client).1.1 = Returns r → r.1.1 = true →
    seen = true ∨ Exists (λ exchanged, allows exchanged.2 = true) (run p client).2.
Proof.
  induction 1 as [seen r Hr|seen|seen sar k _ IH]; intros client r'; cbn.
  - intros [= <-] Htrue. left. by apply Hr.
  - discriminate.
  - intros Hrun Htrue.
    destruct (IH _ _ _ Hrun Htrue) as [[->|Hallows]%orb_true_iff|Hlater].
    + by left.
    + right. by apply Exists_cons_hd.
    + right. by apply Exists_cons_tl.
Qed.

Lemma run_panics_on_nil {R : Type} (p : proc error R) :
  panics_on_nil p →
  ∀ client,
    (∀ i sar, (run p client).2 !! i = Some (sar, (None, None)) →
              (run p client).1.1 = Panics ∧ List.length (run p client).2 = S i)
    ∧ ((run p client).1.1 = Panics →
       ∃ sar, last (run p client).2 = Some (sar, (None, None))).
Proof.
  induction 1 as [r|sar k Hnil _ IH]; intros client; cbn.
  - split; [intros i sar'; discriminate|discriminate].
  - destruct (Create client sar) as [client' a] eqn:Hserved; cbn.
    assert (a = (None, None) ∨ a ≠ (None, None)) as [->|Hne]
      by (destruct a as [[?|] [?|]]; by eauto).
    + rewrite Hnil. cbn. split.
      * intros [|i] sar'; cbn; [done|discriminate].
      * intros _. by exists sar.
    + destruct (IH a Hne client') as [Hat Hlast]. split.
      * intros [|i] sar'; cbn.
        -- intros [= _ ->]. done.
        -- intros Hi. destruct (Hat i sar' Hi) as [-> ->]. done.
      * intros Hpanics. destruct (Hlast Hpanics) as [sar' Hsar'].
        exists sar'. rewrite last_cons, Hsar'. done.
Qed.

Lemma send_asks src sourceNamespace name sarSpec :
  asks (agenda SchemeGroupVersion_Group DataVolumeCloneSourceSubresource
          src sarSpec sourceNamespace name)
       (send src sourceNamespace name sarSpec).
Proof.
  destruct src; unfold_send; repeat first [on_reply | constructor].
Qed.

Lemma send_ends_with src sourceNamespace name sarSpec :
  ends_with
    (λ r, r = granted ∨ r = denied (User sarSpec) sourceNamespace ∨ ∃ e, r = failed e)
    (send src sourceNamespace name sarSpec).
Proof.
  destruct src; unfold_send;
    repeat first
      [ on_reply
      | apply ends_with_Return; unfold granted, denied, failed; by eauto
      | constructor ].
Qed.

Lemma send_grants_after src sourceNamespace name sarSpec :
  grants_after false (send src sourceNamespace name sarSpec).
Proof.
  destruct src; unfold_send;
    repeat first
      [ on_reply
      | apply grants_after_Return; cbn; done
      | constructor ].
Qed.

Lemma send_panics_on_nil src sourceNamespace name sarSpec :
  panics_on_nil (send src sourceNamespace name sarSpec).
Proof.
  destruct src; unfold_send;
    repeat first
      [ apply panics_on_nil_Call;
          [reflexivity|intros [[?review|] [?e|]] ?; cbn; try congruence]
      | on_reply
      | constructor ].
Qed.

Lemma send_uniform src sourceNamespace name sarSpec :
  uniform (send src sourceNamespace name sarSpec).
Proof.
  destruct src; unfold_send;
    repeat first
      [ apply uniform_Call;
          [ intros [[?review|] [?e|]] [[?review|] [?e|]] Hread;
            cbn in Hread |- *; simplify_eq;
            try match goal with
                | H : Allowed _ = Allowed _ |- _ => rewrite H
                end;
            reflexivity
          | ]
      | on_reply
      | constructor ].
Qed.


Lemma insufficient_not_empty principal sourceNamespace :
  insufficient principal sourceNamespace ≠ "".
Proof. discriminate. Qed.

(** X1: the shortcut is taken for equal namespaces only.  The exchange
    with the proxy is empty exactly when the source namespace and the
    target namespace are the same string. *)
Theorem no_review_iff_same_namespace src who sourceNamespace name targetNamespace client :
  (run (CanClone src who sourceNamespace name targetNamespace) client).2 = []
  ↔ sourceNamespace = targetNamespace.
Proof.
  split.
  - intros Hempty. destruct (decide (sourceNamespace = targetNamespace)) as [|Hne]; [done|].
    destruct (cross_namespace_first_review src who _ name _ client Hne) as (a & rest & Hlog).
    congruence.
  - intros <-. by rewrite CanClone_same_namespace.
Qed.

(** X2: the reviews submitted in a call are an initial segment of the
    fixed list the helper ranges over (clone source, pods for a PVC;
    clone source, pods, pvcs for a snapshot), built on the subject of the
    call: no review is repeated, skipped or reordered, whatever the
    replies. *)
Theorem reviews_follow_agenda src who sourceNamespace name targetNamespace client :
  (run (CanClone src who sourceNamespace name targetNamespace) client).2.*1
  `prefix_of`
  agenda SchemeGroupVersion_Group DataVolumeCloneSourceSubresource
    src (subject who targetNamespace) sourceNamespace name.
Proof.
  apply run_asks, CanClone_cases.
  - constructor.
  - apply send_asks.
Qed.

(** X3: a call that returns, returns one of three things: (true, "",
    nil); (false, reason, nil) with the message for the principal and the
    source namespace, which is not empty; or (false, "", err) with a
    non-nil error.  So the reason is empty unless the call denies, and an
    error never comes with a reason or with true. *)
Theorem three_results src who sourceNamespace name targetNamespace client r :
  (run (CanClone src who sourceNamespace name targetNamespace) client).1.1 = Returns r →
  r = (true, "", None)
  ∨ (r = (false, insufficient (User (subject who targetNamespace)) sourceNamespace, None)
     ∧ r.1.2 ≠ "")
  ∨ (∃ e, r = (false, "", Some e)).
Proof.
  intros Hrun.
  apply (run_ends_with
           (λ r, r = granted
                 ∨ r = denied (User (subject who targetNamespace)) sourceNamespace
                 ∨ ∃ e, r = failed e)) in Hrun.
  - destruct Hrun as [->|[->|[e ->]]]; [by left| |by right; right; exists e].
    right. left. split; [reflexivity|apply insufficient_not_empty].
  - apply CanClone_cases; [|apply send_ends_with].
    constructor. by left.
Qed.

(** X4: across namespaces no call returns true unless some reply of the
    exchange is an allowed review with a nil error: errors, denials and
    nil reviews never add up to a grant. *)
Theorem no_grant_without_allowed_review src who sourceNamespace name targetNamespace
    client reason err :
  sourceNamespace ≠ targetNamespace →
  (run (CanClone src who sourceNamespace name targetNamespace) client).1.1
    = Returns (true, reason, err) →
  Exists (λ exchanged, allows exchanged.2 = true)
    (run (CanClone src who sourceNamespace name targetNamespace) client).2.
Proof.
  intros Hne. rewrite cross_namespace by exact Hne. intros Hrun.
  destruct (run_grants_after false _ (send_grants_after src sourceNamespace name _)
              client _ Hrun eq_refl) as [?|?]; done.
Qed.

(** X5: a call panics exactly when a reply is a nil review with a nil
    error.  Such a reply is the last of the exchange, whatever its
    position, and a panic has such a reply as its last. *)
Theorem panic_iff_nil_reply src who sourceNamespace name targetNamespace client :
  (∀ i sar,
     (run (CanClone src who sourceNamespace name targetNamespace) client).2 !! i
       = Some (sar, (None, None)) →
     (run (CanClone src who sourceNamespace name targetNamespace) client).1.1 = Panics
     ∧ List.length (run (CanClone src who sourceNamespace name targetNamespace) client).2
       = S i)
  ∧ ((run (CanClone src who sourceNamespace name targetNamespace) client).1.1 = Panics →
     ∃ sar,
       last (run (CanClone src who sourceNamespace name targetNamespace) client).2
       = Some (sar, (None, None))).
Proof.
  apply run_panics_on_nil, CanClone_cases.
  - constructor.
  - apply send_panics_on_nil.
Qed.

(** Case analysis on everything the proxy may answer along a run. *)
Ltac every_reply :=
  repeat (cbn;
    match goal with
    | |- context [Create ?client ?sar] =>
        destruct (Create client sar) as [? [[?review|] [?e|]]]
    | |- context [Allowed (Status ?review)] =>
        destruct (Allowed (Status review))
    end).

(** X6: across namespaces a call returns (true, "", nil) exactly when
    the replies it got satisfy the policy of the source kind: for a PVC,
    some reply is an allowed review; for a snapshot, the first reply is an
    allowed review, or there are three replies and the second and the
    third are allowed reviews. *)
Theorem granted_iff_policy src who sourceNamespace name targetNamespace client :
  sourceNamespace ≠ targetNamespace →
  (run (CanClone src who sourceNamespace name targetNamespace) client).1.1
    = Returns (true, "", None)
  ↔ satisfied src (run (CanClone src who sourceNamespace name targetNamespace) client).2.*2
    = true.
Proof.
  intros Hne. rewrite cross_namespace by exact Hne.
  destruct src; unfold_send; every_reply; split; (done || discriminate).
Qed.

(** X7: a user operation reads the user name, the groups and the
    entries of the extra map, and nothing else of the user: two users that
    agree on these (whatever their UIDs, and whether a map without entries
    is nil or allocated) get the same result, the same reviews and leave
    the proxy in the same state. *)
Theorem user_read_through_name_groups_entries src sourceNamespace name targetNamespace
    (userInfo userInfo' : authentication.UserInfo) client :
  authentication.Username userInfo = authentication.Username userInfo' →
  authentication.Groups userInfo = authentication.Groups userInfo' →
  entries (authentication.Extra userInfo) = entries (authentication.Extra userInfo') →
  run (CanClone src (AsUser userInfo) sourceNamespace name targetNamespace) client
  = run (CanClone src (AsUser userInfo') sourceNamespace name targetNamespace) client.
Proof.
  intros Hname Hgroups Hentries. rewrite !CanClone_send.
  replace (subject (AsUser userInfo') targetNamespace)
    with (subject (AsUser userInfo) targetNamespace); [reflexivity|].
  destruct userInfo as [? ? ? [m|]], userInfo' as [? ? ? [m'|]];
    cbn in *; subst; repeat case_decide; congruence.
Qed.

(** X8: the subject of a service account tells the account: when a
    review submitted for one service account has the user and the groups
    of a review submitted for another, the two have the same namespace and
    the same name. *)
Theorem service_accounts_not_confused src src' pvcNamespace pvcNamespace' pvcName pvcName'
    saNamespace saNamespace' saName saName' client client' sar sar' :
  sar ∈ (run (CanClone src (AsServiceAccount saName) pvcNamespace pvcName saNamespace)
           client).2.*1 →
  sar' ∈ (run (CanClone src' (AsServiceAccount saName') pvcNamespace' pvcName' saNamespace')
            client').2.*1 →
  User (Spec sar) = User (Spec sar') →
  Groups (Spec sar) = Groups (Spec sar') →
  saNamespace = saNamespace' ∧ saName = saName'.
Proof.
  intros Hsar Hsar'.
  pose proof (CanClone_submits src (AsServiceAccount saName)
                pvcNamespace pvcName saNamespace client) as Hall.
  pose proof (CanClone_submits src' (AsServiceAccount saName')
                pvcNamespace' pvcName' saNamespace' client') as Hall'.
  rewrite Forall_forall in Hall, Hall'.
  destruct (Hall sar Hsar) as (? & ? & ? & ->).
  destruct (Hall' sar' Hsar') as (? & ? & ? & ->).
  cbn. intros Huser [= Hgroup%append_inj_r]. subst saNamespace'.
  split; [reflexivity|].
  by do 3 apply append_inj_r in Huser.
Qed.

(** X9: against a proxy whose answer to a review does not depend on its
    state, whoever may clone from a snapshot may clone from a PVC of the
    same namespace and name: a snapshot call that returns (true, "", nil)
    makes the PVC call return (true, "", nil). *)
Theorem snapshot_grant_implies_pvc_grant who sourceNamespace name targetNamespace
    answer client client' :
  stateless C answer →
  (run (CanClone FromSnapshot who sourceNamespace name targetNamespace) client).1.1
    = Returns (true, "", None) →
  (run (CanClone FromPVC who sourceNamespace name targetNamespace) client').1.1
    = Returns (true, "", None).
Proof.
  intros Hstateless. rewrite !CanClone_send. case_decide; [done|].
  unfold_send. unfold getExplicitResourceAttributeSnapshot.
  repeat (cbn; rewrite ?Hstateless;
    match goal with
    | |- context [answer ?sar] => destruct (answer sar) as [[?review|] [?e|]]
    | |- context [Allowed (Status ?review)] => destruct (Allowed (Status review))
    end);
    cbn; done.
Qed.

(** X11: an error in the returned values is an error of the proxy: when
    a call returns a non-nil error, the last reply of the exchange carries
    that error.  The functions make no error of their own. *)
Theorem error_only_from_proxy src who sourceNamespace name targetNamespace client
    allowed reason e :
  (run (CanClone src who sourceNamespace name targetNamespace) client).1.1
    = Returns (allowed, reason, Some e) →
  ∃ sar response,
    last (run (CanClone src who sourceNamespace name targetNamespace) client).2
    = Some (sar, (response, Some e)).
Proof.
  rewrite CanClone_send. case_decide; [discriminate|].
  destruct src; unfold_send; every_reply; intros [= ]; subst; by eexists _, _.
Qed.

(** X12: a service-account operation is the user operation for the user
    that stands for the account: the user named
    "system:serviceaccount:<saNamespace>:<saName>" in the three
    service-account groups, without extra attributes, gets from the user
    entry point what the account gets from the service-account entry
    point, with the account's namespace as the target namespace. *)
Theorem service_account_as_user src pvcNamespace pvcName saNamespace saName client :
  let userInfo :=
    {| authentication.Username :=
         "system:serviceaccount:" +:+ saNamespace +:+ ":" +:+ saName;
       authentication.UID := "";
       authentication.Groups :=
         ["system:serviceaccounts";
          "system:serviceaccounts:" +:+ saNamespace;
          "system:authenticated"];
       authentication.Extra := None |} in
  run (CanClone src (AsServiceAccount saName) pvcNamespace pvcName saNamespace) client
  = run (CanClone src (AsUser userInfo) pvcNamespace pvcName saNamespace) client.
Proof. cbn zeta. by rewrite !CanClone_send. Qed.

End WithProxy.

Section TwoProxies.

Context {C1 C2 : Type}.
Context `{!SubjectAccessReviewsProxy error C1, !SubjectAccessReviewsProxy error C2}.

Lemma run_uniform {R : Type} (p : proc error R) :
  uniform p →
  ∀ (client1 : C1) (client2 : C2),
    reading <$> (run p client1).2.*2 = reading <$> (run p client2).2.*2 →
    (run p client1).1.1 = (run p client2).1.1
    ∧ (run p client1).2.*1 = (run p client2).2.*1.
Proof.
  induction 1 as [r| |sar k Hk _ IH]; intros client1 client2; cbn; [done..|].
  destruct (Create client1 sar) as [client1' a1], (Create client2 sar) as [client2' a2]; cbn.
  intros [= Hread Hrest]. rewrite (Hk a1 a2 Hread) in Hrest |- *.
  destruct (IH a2 client1' client2' Hrest) as [-> ->]. done.
Qed.

(** X10: the helpers read of a reply its error or, with a nil error, the
    [Allowed] flag of the review (or that the review is nil), and nothing
    else: [Denied], [Reason], [EvaluationError] and the rest of the review
    returned are ignored.  Two exchanges of the same call whose replies
    read the same, against whatever proxies, end the same way and submit
    the same reviews. *)
Theorem replies_read_through_error_and_allowed src who sourceNamespace name targetNamespace
    (client1 : C1) (client2 : C2) :
  reading <$> (run (CanClone src who sourceNamespace name targetNamespace) client1).2.*2
  = reading <$> (run (CanClone src who sourceNamespace name targetNamespace) client2).2.*2 →
  (run (CanClone src who sourceNamespace name targetNamespace) client1).1.1
  = (run (CanClone src who sourceNamespace name targetNamespace) client2).1.1
  ∧ (run (CanClone src who sourceNamespace name targetNamespace) client1).2.*1
    = (run (CanClone src who sourceNamespace name targetNamespace) client2).2.*1.
Proof.
  apply run_uniform, CanClone_cases.
  - constructor.
  - apply send_uniform.
Qed.

End TwoProxies.

End Properties.

(** ** The properties at concrete calls *)

Local Abbreviation cdi_clone_source sarSpec namespace name :=
  (cloneSourceQuery "cdi.kubevirt.io" "source" sarSpec namespace name).

(** The scenario of the specification: alice, without groups or extra
    attributes, clones PVC data-1 from src to dst, and the evaluator
    allows the creation of pods only. *)
Example alice_clones_with_pods_permission :
  (run (cdi FromPVC (AsUser alice) "src" "data-1" "dst") (PodsOnly 0)).1
  = (Returns (true, "", None), PodsOnly 2).
Proof. reflexivity. Qed.

(** A reply that is neither a result nor an error: the nil review is
    dereferenced. *)
Example nil_review_with_nil_error_panics :
  (run (cdi FromPVC (AsUser alice) "src" "data-1" "dst")
     (Scripted [(None, None); allow])).1
  = (Panics, Scripted [allow]).
Proof. reflexivity. Qed.

Lemma pvc_clone_short_circuit_or_witness :
  run (cdi FromPVC (AsUser alice) "src" "data-1" "dst") (Scripted [allow; deny])
  = (Returns (true, "", None), Scripted [deny],
     [(cdi_clone_source (subject (AsUser alice) "dst") "src" "data-1", allow)])
  ∧ run (cdi FromPVC (AsUser alice) "src" "data-1" "dst") (Scripted [deny; allow])
    = (Returns (true, "", None), Scripted [],
       [(cdi_clone_source (subject (AsUser alice) "dst") "src" "data-1", deny);
        (podsQuery (subject (AsUser alice) "dst") "src" "data-1", allow)]).
Proof.
  split.
  - refine (proj1 (pvc_clone_short_circuit_or "cdi.kubevirt.io" "source"
                     (AsUser alice) "src" "data-1" "dst"
                     (Scripted [allow; deny]) (Scripted [deny]) (verdict true) _ _) _).
    + discriminate.
    + reflexivity.
    + reflexivity.
  - refine (proj2 (pvc_clone_short_circuit_or "cdi.kubevirt.io" "source"
                     (AsUser alice) "src" "data-1" "dst"
                     (Scripted [deny; allow]) (Scripted [allow]) (verdict false) _ _)
                  _ (Scripted []) (verdict true) _ _).
    + discriminate.
    + reflexivity.
    + reflexivity.
    + reflexivity.
    + reflexivity.
Defined.

Lemma snapshot_clone_explicit_allowed_witness :
  run (cdi FromSnapshot (AsServiceAccount "importer") "src" "snap-1" "dst")
    (Scripted [allow; deny; deny])
  = (Returns (true, "", None), Scripted [deny; deny],
     [(cdi_clone_source (subject (AsServiceAccount "importer") "dst") "src" "snap-1",
       allow)]).
Proof.
  apply (snapshot_clone_explicit_allowed "cdi.kubevirt.io" "source"
           (AsServiceAccount "importer") "src" "snap-1" "dst"
           (Scripted [allow; deny; deny]) (Scripted [deny; deny]) (verdict true)).
  - discriminate.
  - reflexivity.
  - reflexivity.
Defined.

Lemma snapshot_clone_implicit_and_witness :
  let sa := subject (AsServiceAccount "importer") "dst" in
  let denial :=
    (false,
     "User system:serviceaccount:dst:importer has insufficient permissions in clone source namespace src",
     None) in
  run (cdi FromSnapshot (AsServiceAccount "importer") "src" "snap-1" "dst")
    (Scripted [deny; deny; allow])
  = (Returns denial, Scripted [allow],
     [(cdi_clone_source sa "src" "snap-1", deny); (podsQuery sa "src" "snap-1", deny)])
  ∧ run (cdi FromSnapshot (AsServiceAccount "importer") "src" "snap-1" "dst")
      (Scripted [deny; allow; allow])
    = (Returns (true, "", None), Scripted [],
       [(cdi_clone_source sa "src" "snap-1", deny); (podsQuery sa "src" "snap-1", allow);
        (pvcsQuery sa "src" "snap-1", allow)])
  ∧ run (cdi FromSnapshot (AsServiceAccount "importer") "src" "snap-1" "dst")
      (Scripted [deny; allow; deny])
    = (Returns denial, Scripted [],
       [(cdi_clone_source sa "src" "snap-1", deny); (podsQuery sa "src" "snap-1", allow);
        (pvcsQuery sa "src" "snap-1", deny)]).
Proof.
  cbn zeta. split; [|split].
  - refine (proj1 (snapshot_clone_implicit_and "cdi.kubevirt.io" "source"
                     (AsServiceAccount "importer") "src" "snap-1" "dst"
                     (Scripted [deny; deny; allow]) (Scripted [deny; allow]) (verdict false)
                     (Scripted [allow]) (verdict false) _ _ _ _) _);
      first [discriminate | reflexivity].
  - refine (proj2 (snapshot_clone_implicit_and "cdi.kubevirt.io" "source"
                     (AsServiceAccount "importer") "src" "snap-1" "dst"
                     (Scripted [deny; allow; allow]) (Scripted [allow; allow]) (verdict false)
                     (Scripted [allow]) (verdict true) _ _ _ _)
                  _ (Scripted []) (verdict true) _);
      first [discriminate | reflexivity].
  - refine (proj2 (snapshot_clone_implicit_and "cdi.kubevirt.io" "source"
                     (AsServiceAccount "importer") "src" "snap-1" "dst"
                     (Scripted [deny; allow; deny]) (Scripted [allow; deny]) (verdict false)
                     (Scripted [deny]) (verdict true) _ _ _ _)
                  _ (Scripted []) (verdict false) _);
      first [discriminate | reflexivity].
Defined.

Lemma evaluator_error_returned_unchanged_witness :
  (run (cdi FromSnapshot (AsUser bob) "src" "snap-1" "dst")
     (Scripted [deny; allow; failing "etcd unavailable"; allow])).2 !! 2
  = Some (pvcsQuery (subject (AsUser bob) "dst") "src" "snap-1",
          failing "etcd unavailable")
  ∧ (run (cdi FromSnapshot (AsUser bob) "src" "snap-1" "dst")
       (Scripted [deny; allow; failing "etcd unavailable"; allow])).1.1
    = Returns (false, "", Some "etcd unavailable")
  ∧ List.length
      (run (cdi FromSnapshot (AsUser bob) "src" "snap-1" "dst")
         (Scripted [deny; allow; failing "etcd unavailable"; allow])).2
    = 3.
Proof.
  assert (Hreply :
    (run (cdi FromSnapshot (AsUser bob) "src" "snap-1" "dst")
       (Scripted [deny; allow; failing "etcd unavailable"; allow])).2 !! 2
    = Some (pvcsQuery (subject (AsUser bob) "dst") "src" "snap-1",
            failing "etcd unavailable")) by (vm_compute; reflexivity).
  split; [exact Hreply|].
  exact (evaluator_error_returned_unchanged "cdi.kubevirt.io" "source"
           FromSnapshot (AsUser bob) "src" "snap-1" "dst" _ 2 _ None _ Hreply).
Defined.

Lemma pvc_clone_denied_reason_witness :
  run (cdi FromPVC (AsUser alice) "src" "data-1" "dst") (Scripted [deny; deny])
  = (Returns (false,
              "User alice has insufficient permissions in clone source namespace src",
              None),
     Scripted [],
     [(cdi_clone_source (subject (AsUser alice) "dst") "src" "data-1", deny);
      (podsQuery (subject (AsUser alice) "dst") "src" "data-1", deny)]).
Proof.
  apply (pvc_clone_denied_reason "cdi.kubevirt.io" "source"
           (AsUser alice) "src" "data-1" "dst"
           (Scripted [deny; deny]) (Scripted [deny]) (verdict false)
           (Scripted []) (verdict false));
    first [discriminate | reflexivity].
Defined.

Lemma user_extra_passed_through_witness :
  Forall
    (λ sar, authorization.Extra (authorization.Spec sar)
            = Some {[ "scopes" := ["a"; "b"] ]})
    (run (cdi FromPVC (AsUser bob) "src" "data-1" "dst") (Scripted [deny; deny])).2.*1
  ∧ Forall
      (λ sar, authorization.Extra (authorization.Spec sar) = None)
      (run (cdi FromSnapshot (AsUser alice) "src" "snap-1" "dst")
         (Scripted [deny; allow; allow])).2.*1.
Proof.
  split.
  - eapply Forall_impl;
      [exact (user_extra_passed_through "cdi.kubevirt.io" "source"
                FromPVC "src" "data-1" "dst" bob (Scripted [deny; deny]))|].
    intros sar [Hentries _]. apply Hentries; [reflexivity|].
    apply insert_non_empty.
  - eapply Forall_impl;
      [exact (user_extra_passed_through "cdi.kubevirt.io" "source"
                FromSnapshot "src" "snap-1" "dst" alice (Scripted [deny; allow; allow]))|].
    intros sar [_ Hnone]. apply Hnone. left. reflexivity.
Defined.

(** C9 as it was stated fails for a reply that is a nil review with a
    nil error: the call ends in a panic, which is neither a decision nor
    an error, although the bound on the reviews holds. *)
Lemma bounded_exchange_counterexample :
  let exchange :=
    run (cdi FromPVC (AsUser alice) "src" "data-1" "dst")
      (Scripted [(None, None); allow]) in
  exchange.2.*2 = [(None, None)]
  ∧ exchange.1.1 = Panics
  ∧ ¬ ((∃ allowed reason, exchange.1.1 = Returns (allowed, reason, None))
       ∨ (∃ e, exchange.1.1 = Returns (false, "", Some e))).
Proof.
  cbn zeta. split; [reflexivity|]. split; [reflexivity|].
  intros [(allowed & reason & Hdecision)|(e & Herror)]; discriminate.
Qed.

Lemma bounded_exchange_witness :
  Forall (λ served : authorization.SubjectAccessReview * reply string,
            result_or_error served.2)
    (run (cdi FromSnapshot (AsUser alice) "src" "snap-1" "dst")
       (Scripted [deny; allow; failing "etcd unavailable"])).2
  ∧ (List.length (run (cdi FromSnapshot (AsUser alice) "src" "snap-1" "dst")
                    (Scripted [deny; allow; failing "etcd unavailable"])).2 ≤ 3)%nat
  ∧ ((∃ allowed reason,
        (run (cdi FromSnapshot (AsUser alice) "src" "snap-1" "dst")
           (Scripted [deny; allow; failing "etcd unavailable"])).1.1
        = Returns (allowed, reason, None))
     ∨ (∃ e,
        (run (cdi FromSnapshot (AsUser alice) "src" "snap-1" "dst")
           (Scripted [deny; allow; failing "etcd unavailable"])).1.1
        = Returns (false, "", Some e))).
Proof.
  assert (Hreplies :
    Forall (λ served : authorization.SubjectAccessReview * reply string,
              result_or_error served.2)
      (run (cdi FromSnapshot (AsUser alice) "src" "snap-1" "dst")
         (Scripted [deny; allow; failing "etcd unavailable"])).2)
    by (repeat constructor; discriminate).
  split; [exact Hreplies|].
  pose proof (bounded_exchange "cdi.kubevirt.io" "source"
                FromSnapshot (AsUser alice) "src" "snap-1" "dst"
                (Scripted [deny; allow; failing "etcd unavailable"]))
    as (Hbudget & _ & Hends).
  split; [exact Hbudget|exact (Hends Hreplies)].
Defined.

(** ** The further properties at concrete calls *)

Lemma three_results_witness :
  (run (cdi FromPVC (AsUser alice) "src" "data-1" "dst") (Scripted [deny; deny])).1.1
  = Returns (false, "User alice has insufficient permissions in clone source namespace src",
             None)
  ∧ ((false, "User alice has insufficient permissions in clone source namespace src", None)
     = (true, "", None :> option string)
     ∨ ((false, "User alice has insufficient permissions in clone source namespace src",
         None :> option string)
        = (false, insufficient "alice" "src", None)
        ∧ "User alice has insufficient permissions in clone source namespace src" ≠ "")
     ∨ (∃ e : string,
          (false, "User alice has insufficient permissions in clone source namespace src",
           None)
          = (false, "", Some e))).
Proof.
  split; [reflexivity|].
  apply (three_results "cdi.kubevirt.io" "source" FromPVC (AsUser alice)
           "src" "data-1" "dst" (Scripted [deny; deny])).
  reflexivity.
Defined.

Lemma no_grant_without_allowed_review_witness :
  (run (cdi FromPVC (AsUser alice) "src" "data-1" "dst") (Scripted [deny; allow])).1.1
  = Returns (true, "", None)
  ∧ Exists (λ exchanged : authorization.SubjectAccessReview * reply string,
              allows exchanged.2 = true)
      (run (cdi FromPVC (AsUser alice) "src" "data-1" "dst") (Scripted [deny; allow])).2.
Proof.
  split; [reflexivity|].
  apply (no_grant_without_allowed_review "cdi.kubevirt.io" "source" FromPVC (AsUser alice)
           "src" "data-1" "dst" (Scripted [deny; allow]) "" None).
  - discriminate.
  - reflexivity.
Defined.

Lemma panic_iff_nil_reply_witness :
  (run (cdi FromSnapshot (AsUser bob) "src" "snap-1" "dst")
     (Scripted [deny; (None, None); allow])).2 !! 1
  = Some (podsQuery (subject (AsUser bob) "dst") "src" "snap-1", (None, None))
  ∧ (run (cdi FromSnapshot (AsUser bob) "src" "snap-1" "dst")
       (Scripted [deny; (None, None); allow])).1.1 = Panics
  ∧ List.length (run (cdi FromSnapshot (AsUser bob) "src" "snap-1" "dst")
                   (Scripted [deny; (None, None); allow])).2 = 2.
Proof.
  assert (Hreply :
    (run (cdi FromSnapshot (AsUser bob) "src" "snap-1" "dst")
       (Scripted [deny; (None, None); allow])).2 !! 1
    = Some (podsQuery (subject (AsUser bob) "dst") "src" "snap-1", (None, None)))
    by (vm_compute; reflexivity).
  split; [exact Hreply|].
  exact (proj1 (panic_iff_nil_reply "cdi.kubevirt.io" "source" FromSnapshot (AsUser bob)
                  "src" "snap-1" "dst" (Scripted [deny; (None, None); allow]))
               1 _ Hreply).
Defined.

Lemma granted_iff_policy_witness :
  satisfied FromSnapshot [deny; allow; allow] = true
  ∧ (run (cdi FromSnapshot (AsServiceAccount "importer") "src" "snap-1" "dst")
       (Scripted [deny; allow; allow])).1.1
    = Returns (true, "", None).
Proof.
  split; [reflexivity|].
  apply (granted_iff_policy "cdi.kubevirt.io" "source" FromSnapshot
           (AsServiceAccount "importer") "src" "snap-1" "dst"
           (Scripted [deny; allow; allow])).
  - discriminate.
  - reflexivity.
Defined.

Lemma user_read_through_name_groups_entries_witness :
  run (cdi FromPVC (AsUser alice) "src" "data-1" "dst") (PodsOnly 0)
  = run (cdi FromPVC (AsUser alice_with_uid) "src" "data-1" "dst") (PodsOnly 0).
Proof.
  apply (user_read_through_name_groups_entries "cdi.kubevirt.io" "source" FromPVC
           "src" "data-1" "dst" alice alice_with_uid (PodsOnly 0));
    reflexivity.
Defined.

Lemma service_accounts_not_confused_witness :
  "dst" = "dst" ∧ "importer" = "importer".
Proof.
  apply (service_accounts_not_confused "cdi.kubevirt.io" "source"
           FromPVC FromSnapshot "src" "other" "data-1" "snap-1"
           "dst" "dst" "importer" "importer"
           (Scripted [allow]) (Scripted [deny; allow])
           (cloneSourceQuery "cdi.kubevirt.io" "source"
              (subject (AsServiceAccount "importer") "dst") "src" "data-1")
           (podsQuery (subject (AsServiceAccount "importer") "dst") "other" "snap-1")).
  - vm_compute. apply list_elem_of_here.
  - vm_compute. apply list_elem_of_further, list_elem_of_here.
  - reflexivity.
  - reflexivity.
Defined.

Lemma snapshot_grant_implies_pvc_grant_witness :
  stateless (error := string) implicit_only implicit_only_answer
  ∧ (run (cdi FromSnapshot (AsUser alice) "src" "data-1" "dst") (ImplicitOnly 0)).1.1
    = Returns (true, "", None)
  ∧ (run (cdi FromPVC (AsUser alice) "src" "data-1" "dst") (ImplicitOnly 5)).1.1
    = Returns (true, "", None).
Proof.
  assert (Hstateless : stateless (error := string) implicit_only implicit_only_answer)
    by (intros client sar; reflexivity).
  split; [exact Hstateless|]. split; [reflexivity|].
  apply (snapshot_grant_implies_pvc_grant "cdi.kubevirt.io" "source" (AsUser alice)
           "src" "data-1" "dst" implicit_only_answer (ImplicitOnly 0) (ImplicitOnly 5)
           Hstateless).
  reflexivity.
Defined.

Lemma replies_read_through_error_and_allowed_witness :
  (run (cdi FromPVC (AsUser bob) "src" "data-1" "dst")
     (Scripted [deny; (Some muddled, None)])).1.1
  = (run (cdi FromPVC (AsUser bob) "src" "data-1" "dst") (PodsOnly 0)).1.1
  ∧ (run (cdi FromSnapshot (AsUser bob) "src" "snap-1" "dst")
       (Scripted [deny; (Some (verdict true), Some "late"); allow])).2.*1
    = (run (cdi FromSnapshot (AsUser bob) "src" "snap-1" "dst")
         (Scripted [deny; failing "late"])).2.*1.
Proof.
  split.
  - refine (proj1 (replies_read_through_error_and_allowed "cdi.kubevirt.io" "source"
                     FromPVC (AsUser bob) "src" "data-1" "dst"
                     (Scripted [deny; (Some muddled, None)]) (PodsOnly 0) _)).
    vm_compute. reflexivity.
  - refine (proj2 (replies_read_through_error_and_allowed "cdi.kubevirt.io" "source"
                     FromSnapshot (AsUser bob) "src" "snap-1" "dst"
                     (Scripted [deny; (Some (verdict true), Some "late"); allow])
                     (Scripted [deny; failing "late"]) _)).
    vm_compute. reflexivity.
Defined.

Lemma error_only_from_proxy_witness :
  (run (cdi FromPVC (AsUser alice) "src" "data-1" "dst")
     (Scripted [deny; failing "etcd unavailable"])).1.1
  = Returns (false, "", Some "etcd unavailable")
  ∧ ∃ sar response,
      last (run (cdi FromPVC (AsUser alice) "src" "data-1" "dst")
              (Scripted [deny; failing "etcd unavailable"])).2
      = Some (sar, (response, Some "etcd unavailable")).
Proof.
  split; [reflexivity|].
  apply (error_only_from_proxy "cdi.kubevirt.io" "source" FromPVC (AsUser alice)
           "src" "data-1" "dst" (Scripted [deny; failing "etcd unavailable"]) false "").
  reflexivity.
Defined.
